(** * Nigeria inflation forecasting dashboard ([app.py])

    A shallow embedding of the Streamlit script: the World Bank acquisition
    step, the optional current-month input, the call into Prophet and the
    forecast table with its CSV export.

    The script is a straight-line pipeline.  Everything the script itself
    computes is modelled as executable functions:
    - Python exceptions are the left summand of [result];
    - Streamlit calls are emissions into the list of page elements, threaded
      by the [script] monad, so that what has been rendered when an exception
      aborts the run is visible;
    - timestamps are calendar records; [datetime.replace] and the month-end
      date range are written out on them.

    Three things are done by external parsing and numeric libraries and are
    parameters of the development (the class [Libraries]; nothing is assumed
    of them): [pd.to_datetime], whether Prophet's optimiser accepts a series,
    and the numbers Prophet predicts.  What Prophet and pandas do with dates
    ([make_future_dataframe], the month-end range) is written out. *)

From Stdlib Require Import ZArith QArith Lia.
From stdpp Require Import gmap strings list sorting.

Set Warnings "-register-all".
Local Open Scope Z_scope.

(** ** Timestamps *)

(** [datetime.datetime] / [pd.Timestamp]: a calendar date with a time of day. *)
Record datetime : Type := mk_datetime {
  year : Z; month : Z; day : Z;
  hour : Z; minute : Z; second : Z; microsecond : Z
}.

Global Instance datetime_eq_dec : EqDecision datetime.
Proof. solve_decision. Defined.

(** Midnight on the given day. *)
Definition date (y m d : Z) : datetime := mk_datetime y m d 0 0 0 0.

Definition dt_fields (d : datetime) : list Z :=
  [year d; month d; day d; hour d; minute d; second d; microsecond d].

(** Chronological order is the lexicographic order of the fields. *)
Fixpoint lex_compare (a b : list Z) : comparison :=
  match a, b with
  | [], [] => Eq
  | [], _ :: _ => Lt
  | _ :: _, [] => Gt
  | x :: a', y :: b' =>
      match x ?= y with
      | Eq => lex_compare a' b'
      | c => c
      end
  end.

Definition dt_compare (a b : datetime) : comparison :=
  lex_compare (dt_fields a) (dt_fields b).

Definition dt_leb (a b : datetime) : bool :=
  match dt_compare a b with Gt => false | _ => true end.
Definition dt_ltb (a b : datetime) : bool :=
  match dt_compare a b with Lt => true | _ => false end.

Definition dt_le (a b : datetime) : Prop := dt_leb a b = true.
Definition dt_lt (a b : datetime) : Prop := dt_ltb a b = true.

Global Instance dt_le_dec a b : Decision (dt_le a b).
Proof. unfold dt_le. apply _. Defined.
Global Instance dt_lt_dec a b : Decision (dt_lt a b).
Proof. unfold dt_lt. apply _. Defined.

(** *** Calendar arithmetic *)

Definition is_leap (y : Z) : bool :=
  ((y mod 4 =? 0) && negb (y mod 100 =? 0)) || (y mod 400 =? 0).

Definition days_in_month (y m : Z) : Z :=
  if m =? 2 then (if is_leap y then 29 else 28)
  else if (m =? 4) || (m =? 6) || (m =? 9) || (m =? 11) then 30
  else 31.

(** [d.replace(day=1)]: only the day changes, the time of day is kept. *)
Definition replace_day1 (d : datetime) : datetime :=
  mk_datetime (year d) (month d) 1 (hour d) (minute d) (second d) (microsecond d).

(** Months counted from year 0, used to speak of consecutive months. *)
Definition month_index (d : datetime) : Z := year d * 12 + (month d - 1).

Definition is_month_end (d : datetime) : Prop :=
  day d = days_in_month (year d) (month d).

Definition same_time_of_day (a b : datetime) : Prop :=
  hour a = hour b /\ minute a = minute b /\ second a = second b /\
  microsecond a = microsecond b.

Definition same_calendar_month (a b : datetime) : Prop :=
  year a = year b /\ month a = month b.

(** Rolling a timestamp forward to the end of its month ([MonthEnd]
    roll-forward: a timestamp already on the last day is left alone, and
    the time of day is not normalised). *)
Definition month_end_of (d : datetime) : datetime :=
  mk_datetime (year d) (month d) (days_in_month (year d) (month d))
              (hour d) (minute d) (second d) (microsecond d).

(** Adding one [MonthEnd] to a month-end timestamp. *)
Definition next_month_end (d : datetime) : datetime :=
  let y := if month d =? 12 then year d + 1 else year d in
  let m := if month d =? 12 then 1 else month d + 1 in
  mk_datetime y m (days_in_month y m) (hour d) (minute d) (second d) (microsecond d).

Fixpoint month_ends (d : datetime) (k : nat) : list datetime :=
  match k with
  | O => []
  | S k' => d :: month_ends (next_month_end d) k'
  end.

(** [pd.date_range(start=start, periods=k, freq='M')]. *)
Definition date_range_M (start : datetime) (k : nat) : list datetime :=
  month_ends (month_end_of start) k.

(** The first month end strictly after [d]: the end of [d]'s own month
    when [d] lies before it, the end of the next month otherwise. *)
Definition first_month_end_after (d : datetime) : datetime :=
  if dt_ltb d (month_end_of d) then month_end_of d
  else next_month_end (month_end_of d).

(** Year and month of [a] come before those of [b]. *)
Definition ym_lt (a b : datetime) : Prop :=
  year a < year b ∨ (year a = year b ∧ month a < month b).

(** ** Python values and exceptions *)

(** A decoded JSON document, as [response.json()] returns it. *)
Inductive json : Type :=
  | JNull
  | JBool (b : bool)
  | JNum (q : Q)
  | JStr (s : string)
  | JArr (l : list json)
  | JObj (m : gmap string json).

Definition is_None (v : json) : bool :=
  match v with JNull => true | _ => false end.

Inductive exn : Type :=
  | RequestException
  | JSONDecodeError
  | IndexError
  | KeyError (k : string)
  | TypeError
  | ValueError (msg : string).

(** A computation that returns or raises. *)
Definition result (A : Type) : Type := (exn + A)%type.

Global Instance result_ret : MRet result := λ A a, inr a.
Global Instance result_bind : MBind result :=
  λ A B f m, match m with inl e => inl e | inr a => f a end.

Definition raise {A} (e : exn) : result A := inl e.

(** [j[i]] for an integer [i]. *)
Definition getitem_int (i : nat) (j : json) : result json :=
  match j with
  | JArr l => match l !! i with Some v => mret v | None => raise IndexError end
  | JStr s =>
      match String.get i s with
      | Some c => mret (JStr (String c EmptyString))
      | None => raise IndexError
      end
  | JObj _ => raise (KeyError "1")
  | _ => raise TypeError
  end.

(** [j[k]] for a string [k]: only a dict can be subscripted by a string. *)
Definition getitem_str (k : string) (j : json) : result json :=
  match j with
  | JObj m => match m !! k with Some v => mret v | None => raise (KeyError k) end
  | _ => raise TypeError
  end.

Fixpoint chars (s : string) : list json :=
  match s with
  | EmptyString => []
  | String c s' => JStr (String c EmptyString) :: chars s'
  end.

(** [for d in j]: lists yield their elements, strings their characters,
    dicts their keys; anything else is not iterable. *)
Definition iterate (j : json) : result (list json) :=
  match j with
  | JArr l => mret l
  | JStr s => mret (chars s)
  | JObj m => mret (JStr <$> (map_to_list m).*1)
  | _ => raise TypeError
  end.

(** ** Tables *)

(** A row of the observation table: columns [Date] and [Inflation].  The
    [Inflation] cell holds whatever non-null JSON value the API sent, or
    the number typed into the dashboard.  The table is the list of its rows
    in order; the index labels pandas attaches to them are not kept. *)
Record obs : Type := mk_obs { Date : datetime; Inflation : json }.

(** The same row once renamed to Prophet's schema ([ds], [y]). *)
Record prophet_input : Type := mk_input { in_ds : datetime; in_y : json }.

(** The three numbers Prophet predicts for one timestamp. *)
Record estimate : Type := mk_estimate {
  est_yhat : Q; est_lower : Q; est_upper : Q
}.

(** A row of Prophet's forecast frame, restricted to the columns the
    script reads. *)
Record forecast_row : Type := mk_forecast_row {
  ds : datetime; yhat : Q; yhat_lower : Q; yhat_upper : Q
}.

(** Cells of a displayed or exported table. *)
Inductive cell : Type :=
  | CDate (d : datetime)
  | CNum (q : Q)
  | CVal (v : json)
  | CInt (n : nat).

(** A data frame with named columns; each row carries its index label. *)
Record table : Type := mk_table {
  columns : list string;
  rows : list (nat * list cell)
}.

(** The structure of a CSV document: a header line and the records. *)
Record csv : Type := mk_csv {
  header : list string;
  records : list (list cell)
}.

(** [df.tail(n)] for [n >= 0]: the last [n] rows, all of them if fewer. *)
Definition tail {A} (n : nat) (l : list A) : list A :=
  drop (length l - n)%nat l.

(** ** External libraries *)

(** What the script delegates: date parsing, Prophet's fitting and
    Prophet's numbers.  [prophet_estimate h future i] is the estimate in
    row [i] of the frame predicted for the timestamps [future] by the model
    fitted on [h].  [to_datetime] raises or returns a timestamp: inputs for
    which pandas returns a missing or a timezone-aware value instead are
    not covered. *)
Class Libraries : Type := {
  to_datetime : json → result datetime;
  prophet_fits : list prophet_input → bool;
  prophet_estimate : list prophet_input → list datetime → nat → estimate
}.

(** ** Page elements and the script monad *)

Record trace : Type := mk_trace {
  trace_x : list cell; trace_y : list cell; trace_name : string
}.

Record figure : Type := mk_figure {
  traces : list trace;
  fig_title : string; xaxis_title : string; yaxis_title : string
}.

Inductive element : Type :=
  | set_page_config (page_title layout : string)
  | title (s : string)
  | expander (label : string) (body : list element)
  | dataframe_obs (data : list obs)
  | dataframe (t : table)
  | slider (label : string) (lo hi default : nat)
  | checkbox (label : string)
  | number_input (label : string) (min_value max_value step : Q)
  | plotly_chart (fig : figure)
  | download_button (label : string) (data : csv) (file_name mime : string).

(** A run of the script: the elements rendered so far are threaded through,
    and an exception stops the run with what was rendered before it. *)
Definition script (A : Type) : Type := list element → list element * result A.

Global Instance script_ret : MRet script := λ A a page, (page, inr a).
Global Instance script_bind : MBind script :=
  λ A B f m page,
    match m page with
    | (page', inl e) => (page', inl e)
    | (page', inr a) => f a page'
    end.

Definition emit (e : element) : script unit := λ page, (page ++ [e], inr tt).
Definition lift {A} (r : result A) : script A := λ page, (page, r).
Definition run {A} (m : script A) : list element * result A := m [].

(** What the user has set on the widgets. *)
Record inputs : Type := mk_inputs {
  forecast_period : nat;       (* the slider, an integer of [3, 36] *)
  input_current : bool;        (* the checkbox *)
  current_inflation : Q        (* the number field *)
}.

(** The outcome of [requests.get(url)] followed by [response.json()]:
    the request raised, or a body arrived that is JSON or is not. *)
Inductive http : Type :=
  | request_failed
  | response (body : option json).

Section App.
Context `{Libraries}.

(** *** Data acquisition *)

(** The list comprehension of [get_world_bank_inflation]: the filter
    [d['value'] is not None] is evaluated first, and [d['date']] is read
    only for the records that pass it. *)
Fixpoint comprehension (json_data : list json) : result (list obs) :=
  match json_data with
  | [] => mret []
  | d :: rest =>
      v ← getitem_str "value" d;
      if is_None v then comprehension rest
      else
        dj ← getitem_str "date" d;
        t ← to_datetime dj;
        v' ← getitem_str "value" d;
        tl ← comprehension rest;
        mret (mk_obs t v' :: tl)
  end.

Definition by_Date (a b : obs) : Prop := dt_le (Date a) (Date b).

(** [data.sort_values("Date")].  A frame built from an empty list of
    dicts has no columns, so the sort raises [KeyError].  The order the
    sort leaves among rows of equal date is one of those pandas may
    produce; only the order by date is used below. *)
Definition sort_values_Date (data : list obs) : result (list obs) :=
  match data with
  | [] => raise (KeyError "Date")
  | _ => mret (merge_sort by_Date data)
  end.

Definition json_of (r : http) : result json :=
  match r with
  | request_failed => raise RequestException
  | response None => raise JSONDecodeError
  | response (Some j) => mret j
  end.

Definition get_world_bank_inflation (r : http) : result (list obs) :=
  j ← json_of r;
  second ← getitem_int 1 j;
  json_data ← iterate second;
  data ← comprehension json_data;
  sort_values_Date data.

(** *** Interactive input *)

(** Lines 54-57: the row for the current month is appended unless its
    timestamp is already in the [Date] column.  The test [today not in
    data['Date'].values] is read as the search for an equal timestamp; on
    a nanosecond column numpy may find no element equal to a [datetime],
    and the guard then never fires.  The theorems on this step below (C4,
    C10, X6, X11) hold under both readings: none needs the guard to fire. *)
Definition append_current_month (data : list obs) (value : Q) (now : datetime)
  : list obs :=
  let today := replace_day1 now in
  if decide (today ∉ (Date <$> data))
  then data ++ [mk_obs today (JNum value)]
  else data.

(** The whole step of lines 52-57 as a function of the widget state. *)
Definition interactive_input (enabled : bool) (value : Q) (now : datetime)
    (data : list obs) : list obs :=
  if enabled then append_current_month data value now else data.

(** *** Forecast engine *)

Definition rename_ds_y (df : list obs) : list prophet_input :=
  (λ r, mk_input (Date r) (Inflation r)) <$> df.

(** A fitted model: what [make_future_dataframe] and [predict] use. *)
Record Prophet : Type := mk_Prophet {
  history : list prophet_input;
  history_dates : list datetime
}.

(** [Prophet().fit(df)]: at least two rows with a non-null [y] are
    required; the dates kept are the distinct [ds], ascending. *)
Definition fit (df : list prophet_input) : result Prophet :=
  let h := filter (λ r, is_None (in_y r) = false) df in
  if (length h <? 2)%nat
  then raise (ValueError "Dataframe has less than 2 non-NaN rows.")
  else if prophet_fits df
  then mret (mk_Prophet h (merge_sort dt_le (remove_dups (in_ds <$> df))))
  else raise (ValueError "fit failed").

(** [Series.max()] on the dates. *)
Definition dt_max (a b : datetime) : datetime := if dt_leb a b then b else a.
Definition max_date (l : list datetime) : option datetime :=
  match l with
  | [] => None
  | d :: l' => Some (foldr dt_max d l')
  end.

(** [model.make_future_dataframe(periods, freq='M')], history included. *)
Definition make_future_dataframe (m : Prophet) (periods : nat) : list datetime :=
  match max_date (history_dates m) with
  | None => []
  | Some last_date =>
      let dates := date_range_M last_date (S periods) in
      let dates := filter (dt_lt last_date) dates in
      let dates := take periods dates in
      history_dates m ++ dates
  end.

(** [model.predict(future)]: one row per timestamp of [future]. *)
Definition predict (m : Prophet) (future : list datetime) : list forecast_row :=
  imap (λ i d,
          let e := prophet_estimate (history m) future i in
          mk_forecast_row d (est_yhat e) (est_lower e) (est_upper e))
       future.

Definition forecast_inflation (df : list obs) (periods : nat)
  : result (list forecast_row) :=
  let data := rename_ds_y df in
  model ← fit data;
  let future := make_future_dataframe model periods in
  mret (predict model future).

(** *** Presentation *)

(** [forecast[['ds', 'yhat', 'yhat_lower', 'yhat_upper']]]; the frame has
    the default index 0, 1, ... *)
Definition select_columns (forecast : list forecast_row) : table :=
  mk_table ["ds"; "yhat"; "yhat_lower"; "yhat_upper"]
    (imap (λ i r, (i, [CDate (ds r); CNum (yhat r);
                       CNum (yhat_lower r); CNum (yhat_upper r)]))
          forecast).

Definition table_tail (n : nat) (t : table) : table :=
  mk_table (columns t) (tail n (rows t)).

(** [df.rename(columns=mapping)]: names outside the mapping are kept. *)
Definition rename (mapping : gmap string string) (t : table) : table :=
  mk_table ((λ c, default c (mapping !! c)) <$> columns t) (rows t).

Definition display_names : gmap string string :=
  <["ds" := "Date"]> (<["yhat" := "Forecast"]>
  (<["yhat_lower" := "Lower Bound"]> (<["yhat_upper" := "Upper Bound"]> ∅))).

(** [df.to_csv(index=index)]: with the index, a first column with an
    empty header holds the labels. *)
Definition to_csv (index : bool) (t : table) : csv :=
  if index
  then mk_csv ("" :: columns t) ((λ r, CInt r.1 :: r.2) <$> rows t)
  else mk_csv (columns t) (snd <$> rows t).

Definition forecast_display (forecast : list forecast_row) (n : nat) : table :=
  rename display_names (table_tail n (select_columns forecast)).

Definition chart (data : list obs) (forecast : list forecast_row) : figure :=
  mk_figure
    [ mk_trace ((λ r, CDate (Date r)) <$> data)
               ((λ r, CVal (Inflation r)) <$> data) "Historical Inflation";
      mk_trace ((λ r, CDate (ds r)) <$> forecast)
               ((λ r, CNum (yhat r)) <$> forecast) "Forecast" ]
    "Inflation Forecast" "Date" "Inflation Rate (%)".

(** *** The script, top to bottom *)

Definition app (r : http) (inp : inputs) (now : datetime) : script unit :=
  emit (set_page_config "Nigeria Inflation Forecast" "wide");;
  emit (title "🇳🇬 Nigeria Inflation Forecasting Model");;
  data ← lift (get_world_bank_inflation r);
  emit (expander "📊 Show Raw Data" [dataframe_obs (tail 12 data)]);;
  emit (slider "Select number of months to forecast" 3 36 12);;
  emit (checkbox "📥 Input current month's inflation");;
  data ← (if input_current inp
          then emit (number_input "Enter current inflation rate (%)"
                                  0 100 (1 # 10));;
               mret (append_current_month data (current_inflation inp) now)
          else mret data);
  forecast ← lift (forecast_inflation data (forecast_period inp));
  emit (plotly_chart (chart data forecast));;
  let shown := forecast_display forecast (forecast_period inp) in
  emit (expander "📅 Show Forecasted Values" [dataframe shown]);;
  emit (download_button "📥 Download Forecast as CSV" (to_csv false shown)
                        "nigeria_inflation_forecast.csv" "text/csv").

Definition render (r : http) (inp : inputs) (now : datetime)
  : list element * result unit :=
  run (app r inp now).

End App.

(** ** Reading the page back *)

(** The contents of the raw-data views on a page. *)
Definition raw_views (page : list element) : list (list obs) :=
  omap (λ e, match e with
             | expander _ [dataframe_obs d] => Some d
             | _ => None
             end) page.

(** The tables shown on a page. *)
Definition shown_tables (page : list element) : list table :=
  omap (λ e, match e with
             | expander _ [dataframe t] => Some t
             | _ => None
             end) page.

(** The download buttons on a page, as (document, file name, MIME type). *)
Definition downloads (page : list element) : list (csv * string * string) :=
  omap (λ e, match e with
             | download_button _ doc name mime => Some (doc, name, mime)
             | _ => None
             end) page.

(** The first column of a table. *)
Definition first_column (t : table) : list cell :=
  (λ r, hd (CInt 0) r.2) <$> rows t.

(** A displayed row whose bounds bracket its point estimate. *)
Definition bracketed (r : list cell) : Prop :=
  match r with
  | [CDate _; CNum f; CNum lo; CNum hi] => (lo <= f)%Q ∧ (f <= hi)%Q
  | _ => False
  end.

(** ** Well-formed responses *)

Section Responses.
Context `{Libraries}.

(** A record with a non-null [value]. *)
Definition has_value (d : json) : bool :=
  match getitem_str "value" d with
  | inr v => negb (is_None v)
  | inl _ => false
  end.

(** A record of the documented shape: a dict with a [value], and, when
    the value is not null, a [date] that parses. *)
Definition valid_record (d : json) : bool :=
  match getitem_str "value" d with
  | inr v =>
      is_None v ||
      match getitem_str "date" d with
      | inr dj => match to_datetime dj with inr _ => true | inl _ => false end
      | inl _ => false
      end
  | inl _ => false
  end.

(** The table row a record stands for, if it has a non-null value. *)
Definition row_of (d : json) : option obs :=
  match getitem_str "value" d with
  | inr v =>
      if is_None v then None
      else match getitem_str "date" d with
           | inr dj => match to_datetime dj with
                       | inr t => Some (mk_obs t v)
                       | inl _ => None
                       end
           | inl _ => None
           end
  | inl _ => None
  end.

End Responses.

(** A record the comprehension cannot process: not a dict, a dict without
    [value], or a dict with a non-null [value] and no [date]. *)
Definition malformed_record (d : json) : bool :=
  match getitem_str "value" d with
  | inr v =>
      negb (is_None v) &&
      match getitem_str "date" d with inr _ => false | inl _ => true end
  | inl _ => true
  end.

(** The failures of the acquisition step named by the error taxonomy: the
    request raises, the body is an array without a second element, or the
    second element is a list with a malformed record. *)
Definition bad_response (r : http) : bool :=
  match r with
  | request_failed => true
  | response (Some (JArr (_ :: JArr recs :: _))) => existsb malformed_record recs
  | response (Some (JArr [_])) => true
  | response (Some (JArr [])) => true
  | _ => false
  end.

(** What is on the page before the data is loaded. *)
Definition page_head : list element :=
  [ set_page_config "Nigeria Inflation Forecast" "wide";
    title "🇳🇬 Nigeria Inflation Forecasting Model" ].

(** The page of a run whose acquisition succeeded, up to the forecast. *)
Definition page_inputs (data : list obs) (inp : inputs) : list element :=
  page_head ++
  [ expander "📊 Show Raw Data" [dataframe_obs (tail 12 data)];
    slider "Select number of months to forecast" 3 36 12;
    checkbox "📥 Input current month's inflation" ] ++
  (if input_current inp
   then [number_input "Enter current inflation rate (%)" 0 100 (1 # 10)]
   else []).

(** ** A concrete instance of the libraries, for the examples *)

Definition digit_of (c : Ascii.ascii) : option Z :=
  let n := Z.of_nat (Ascii.nat_of_ascii c) in
  if (48 <=? n) && (n <=? 57) then Some (n - 48) else None.

Fixpoint parse_digits (s : string) (acc : Z) : option Z :=
  match s with
  | EmptyString => Some acc
  | String c s' =>
      match digit_of c with
      | Some n => parse_digits s' (acc * 10 + n)
      | None => None
      end
  end.

(** [pd.to_datetime] on the annual labels of the indicator: a four-digit
    year is read as midnight on 1 January of that year. *)
Definition year_to_datetime (j : json) : result datetime :=
  match j with
  | JStr s =>
      if (String.length s =? 4)%nat
      then match parse_digits s 0 with
           | Some y => mret (date y 1 1)
           | None => raise (ValueError "unparseable date")
           end
      else raise (ValueError "unparseable date")
  | _ => raise TypeError
  end.

Definition numeric (v : json) : bool :=
  match v with JNum _ => true | _ => false end.

(** A stand-in predictor: the last observed number, plus or minus one. *)
Definition naive_estimate (h : list prophet_input) (future : list datetime)
    (i : nat) : estimate :=
  let y := match last h with
           | Some (mk_input _ (JNum q)) => q
           | _ => 0%Q
           end in
  mk_estimate y (y - 1)%Q (y + 1)%Q.

Definition demo : Libraries := {|
  to_datetime := year_to_datetime;
  prophet_fits := forallb (λ r, numeric (in_y r));
  prophet_estimate := naive_estimate
|}.

Definition record (d : string) (v : json) : json :=
  JObj (<["date" := JStr d]> (<["value" := v]> ∅)).

(** The two-point series of the end-to-end example. *)
Definition sample : list obs :=
  [ mk_obs (date 2023 1 1) (JNum (218 # 10));
    mk_obs (date 2023 2 1) (JNum (219 # 10)) ].

Definition meta : json := JObj (<["page" := JNum 1]> ∅).

(** A response with a null record and two annual records. *)
Definition sample_response : http :=
  response (Some (JArr [meta; JArr [ record "2023" (JNum (2466 # 100));
                                     record "2024" JNull;
                                     record "2022" (JNum (1885 # 100)) ]])).

(** A response with two records for the same year. *)
Definition repeated_year_response : http :=
  response (Some (JArr [meta; JArr [ record "2020" (JNum (1325 # 100));
                                     record "2020" (JNum (1140 # 100)) ]])).

(** A response with a null record that has no [date]. *)
Definition dateless_null_response : http :=
  response (Some (JArr [meta; JArr [ JObj (<["value" := JNull]> ∅);
                                     record "2022" (JNum (1885 # 100));
                                     record "2023" (JNum (2466 # 100)) ]])).

(** A response with a record that has no [value]. *)
Definition valueless_response : http :=
  response (Some (JArr [meta; JArr [ record "2022" (JNum (1885 # 100));
                                     JObj (<["date" := JStr "2023"]> ∅) ]])).

Definition sample_inputs : inputs := mk_inputs 3 true (219 # 10).

(** Two readings of the clock, one second apart, on 15 March 2023. *)
Definition clock1 : datetime := mk_datetime 2023 3 15 10 0 0 0.
Definition clock2 : datetime := mk_datetime 2023 3 15 10 0 1 0.




(** The forecast of the two-point series over three months, and a page
    rendered from [sample_response], both with the stand-in predictor. *)
Definition sample_forecast : list forecast_row :=
  match @forecast_inflation demo sample 3 with
  | inr forecast => forecast
  | inl _ => []
  end.


(** ** Further readers and example inputs *)

(** A record whose [value] is null. *)
Definition null_valued (d : json) : bool :=
  match getitem_str "value" d with
  | inr v => is_None v
  | inl _ => false
  end.

(** A timestamp with no time of day, as [pd.to_datetime] gives for a date. *)
Definition at_midnight (d : datetime) : bool :=
  (hour d =? 0) && (minute d =? 0) && (second d =? 0) && (microsecond d =? 0).

(** The charts on a page. *)
Definition charts (page : list element) : list figure :=
  omap (λ e, match e with plotly_chart fig => Some fig | _ => None end) page.

Definition index (t : table) : list nat := (rows t).*1.

(** A response whose only record is null, one with a single usable
    record, and [sample_response] with its records in another order. *)
Definition null_only_response : http :=
  response (Some (JArr [meta; JArr [ record "2024" JNull ]])).

Definition single_record_response : http :=
  response (Some (JArr [meta; JArr [ record "2024" JNull;
                                     record "2023" (JNum (2466 # 100)) ]])).

Definition reordered_response : http :=
  response (Some (JArr [meta; JArr [ record "2022" (JNum (1885 # 100));
                                     record "2023" (JNum (2466 # 100));
                                     record "2024" JNull ]])).

(** The two-point series with a midnight row for March 2023, and the
    two-point series with other values on the same dates. *)
Definition march_series : list obs :=
  sample ++ [mk_obs (date 2023 3 1) (JNum (220 # 10))].

Definition sample_other_values : list obs :=
  [ mk_obs (date 2023 1 1) (JNum (5 # 1));
    mk_obs (date 2023 2 1) (JNum (90 # 1)) ].

Definition unticked_inputs : inputs := mk_inputs 12 false 0.

(** The forecast of a series with the stand-in predictor. *)
Definition demo_forecast (data : list obs) (n : nat) : list forecast_row :=
  match @forecast_inflation demo data n with
  | inr forecast => forecast
  | inl _ => []
  end.

(** * Properties *)

(** ** The order on timestamps *)

Lemma lex_compare_refl a : lex_compare a a = Eq.
Proof. induction a as [|x a IH]; simpl; [done|]. by rewrite Z.compare_refl. Qed.

Lemma lex_compare_Eq a b : lex_compare a b = Eq → a = b.
Proof.
  revert b. induction a as [|x a IH]; intros [|y b]; simpl; try done.
  destruct (Z.compare_spec x y); try done.
  intros Hab. subst. f_equal. by apply IH.
Qed.

Lemma lex_compare_antisym a b : lex_compare b a = CompOpp (lex_compare a b).
Proof.
  revert b. induction a as [|x a IH]; intros [|y b]; simpl; try done.
  rewrite (Z.compare_antisym x y).
  destruct (x ?= y); simpl; auto.
Qed.

Lemma lex_compare_trans a b c :
  lex_compare a b ≠ Gt → lex_compare b c ≠ Gt → lex_compare a c ≠ Gt.
Proof.
  revert b c. induction a as [|x a IH]; intros [|y b] [|z c]; simpl; try done.
  destruct (Z.compare_spec x y), (Z.compare_spec y z), (Z.compare_spec x z);
    try done; try lia.
  apply IH.
Qed.

Lemma dt_fields_inj a b : dt_fields a = dt_fields b → a = b.
Proof. destruct a, b. unfold dt_fields; simpl. by intros [= -> -> -> -> -> -> ->]. Qed.

Lemma dt_leb_spec a b : dt_le a b ↔ dt_compare a b ≠ Gt.
Proof. unfold dt_le, dt_leb. destruct (dt_compare a b); naive_solver. Qed.

Global Instance dt_le_refl : Reflexive dt_le.
Proof.
  intros a. apply dt_leb_spec. unfold dt_compare. by rewrite lex_compare_refl.
Qed.

Global Instance dt_le_trans : Transitive dt_le.
Proof.
  intros a b c. rewrite !dt_leb_spec. apply lex_compare_trans.
Qed.

Global Instance dt_le_total : Total dt_le.
Proof.
  intros a b. rewrite !dt_leb_spec. unfold dt_compare.
  rewrite (lex_compare_antisym (dt_fields a) (dt_fields b)).
  destruct (lex_compare (dt_fields a) (dt_fields b)); simpl; auto.
Qed.

Global Instance dt_le_antisym : AntiSymm (=) dt_le.
Proof.
  intros a b. rewrite !dt_leb_spec. unfold dt_compare.
  rewrite (lex_compare_antisym (dt_fields a) (dt_fields b)).
  intros Hab Hba. apply dt_fields_inj, lex_compare_Eq.
  destruct (lex_compare (dt_fields a) (dt_fields b)); simpl in *; done.
Qed.

Lemma dt_lt_le_ne a b : dt_lt a b ↔ dt_le a b ∧ a ≠ b.
Proof.
  unfold dt_lt, dt_ltb, dt_le, dt_leb, dt_compare. split.
  - destruct (lex_compare (dt_fields a) (dt_fields b)) eqn:E; try done.
    intros _. split; [done|]. intros ->. by rewrite lex_compare_refl in E.
  - destruct (lex_compare (dt_fields a) (dt_fields b)) eqn:E; try done.
    + intros [_ Hne]. destruct Hne. by apply dt_fields_inj, lex_compare_Eq.
    + by intros [? _].
Qed.

Lemma dt_lt_irrefl a : ¬ dt_lt a a.
Proof. intros [_ Hne]%dt_lt_le_ne. by apply Hne. Qed.

Global Instance by_Date_total : Total by_Date.
Proof. intros a b. unfold by_Date. apply dt_le_total. Qed.

Global Instance by_Date_trans : Transitive by_Date.
Proof. intros a b c. unfold by_Date. apply dt_le_trans. Qed.

(** A list sorted by [dt_le] whose elements are distinct is strictly
    increasing. *)
Lemma StronglySorted_strict (l : list datetime) :
  StronglySorted dt_le l → NoDup l → StronglySorted dt_lt l.
Proof.
  induction 1 as [|x l Hs IH Hall]; intros Hnd; [constructor|].
  apply NoDup_cons in Hnd as [Hx Hnd]. constructor; [by apply IH|].
  rewrite Forall_forall in Hall |- *. intros y Hy.
  apply dt_lt_le_ne. split; [by apply Hall|]. intros ->. done.
Qed.

Lemma StronglySorted_fmap_Date (l : list obs) :
  StronglySorted by_Date l → StronglySorted dt_le (Date <$> l).
Proof.
  induction 1 as [|x l Hs IH Hall]; simpl; constructor; [done|].
  by apply Forall_fmap.
Qed.

(** ** Data acquisition *)

Section Acquisition.
Context `{Libraries}.

Lemma row_of_has_value d r : row_of d = Some r → has_value d = true.
Proof.
  unfold row_of, has_value. destruct (getitem_str "value" d) as [|v]; [done|].
  by destruct (is_None v).
Qed.

Lemma row_of_Inflation d r :
  row_of d = Some r →
  getitem_str "value" d = inr (Inflation r) ∧ Inflation r ≠ JNull.
Proof.
  unfold row_of. destruct (getitem_str "value" d) as [|v]; [done|].
  destruct (is_None v) eqn:Hv; [done|].
  destruct (getitem_str "date" d) as [|dj]; [done|].
  destruct (to_datetime dj) as [|t]; [done|].
  intros [= <-]. simpl. split; [done|]. by intros ->.
Qed.

Lemma row_of_Date d r :
  row_of d = Some r →
  ∃ dj, getitem_str "date" d = inr dj ∧ to_datetime dj = inr (Date r).
Proof.
  unfold row_of. destruct (getitem_str "value" d) as [|v]; [done|].
  destruct (is_None v); [done|].
  destruct (getitem_str "date" d) as [|dj]; [done|].
  destruct (to_datetime dj) as [|t] eqn:Ht; [done|].
  intros [= <-]. by exists dj.
Qed.

(** On valid records the comprehension returns the rows of the records
    with a value, in the order of the response. *)
Lemma comprehension_valid recs :
  forallb valid_record recs = true →
  comprehension recs = inr (omap row_of recs).
Proof.
  induction recs as [|d recs IH]; [done|].
  simpl. intros [Hd Hrecs]%andb_prop. specialize (IH Hrecs).
  unfold valid_record in Hd. unfold row_of.
  destruct (getitem_str "value" d) as [|v]; [done|]. simpl.
  destruct (is_None v); [done|]. simpl in Hd.
  destruct (getitem_str "date" d) as [|dj]; [done|]. simpl.
  destruct (to_datetime dj) as [|t]; [done|]. simpl.
  by rewrite IH.
Qed.

Lemma valid_record_cases d :
  valid_record d = true →
  (row_of d = None ∧ has_value d = false) ∨
  (∃ r, row_of d = Some r ∧ has_value d = true).
Proof.
  unfold valid_record, row_of, has_value.
  destruct (getitem_str "value" d) as [|v]; [done|].
  destruct (is_None v); simpl; [by left|].
  destruct (getitem_str "date" d) as [|dj]; [done|].
  destruct (to_datetime dj) as [|t]; [done|].
  intros _. right. by eexists.
Qed.

Lemma rows_length_valid recs :
  forallb valid_record recs = true →
  length (omap row_of recs) = length (filter has_value recs).
Proof.
  induction recs as [|d recs IH]; [done|].
  simpl. intros [Hd Hrecs]%andb_prop. specialize (IH Hrecs).
  rewrite filter_cons.
  destruct (valid_record_cases d Hd) as [[-> Hv]|(r & -> & Hv)]; rewrite Hv.
  - by rewrite decide_False by auto.
  - rewrite decide_True by done. simpl. f_equal. exact IH.
Qed.

Lemma sort_values_Date_sorted data sorted :
  sort_values_Date data = inr sorted →
  sorted ≡ₚ data ∧ StronglySorted by_Date sorted.
Proof.
  unfold sort_values_Date. destruct data as [|r data]; [done|].
  intros [= <-]. split.
  - apply merge_sort_Permutation.
  - apply (StronglySorted_merge_sort by_Date).
Qed.

(** C5 (amended): on a response whose records are valid and at least two
    of which have a non-null value, the acquisition step returns a table;
    the table holds exactly the rows of the records with a non-null value,
    no cell of it is null, and its dates are ascending: never decreasing,
    and strictly increasing when no date occurs twice. *)
Theorem acquisition_sorted_by_date x recs more :
  forallb valid_record recs = true →
  (2 ≤ length (filter has_value recs))%nat →
  ∃ data,
    get_world_bank_inflation (response (Some (JArr (x :: JArr recs :: more))))
      = inr data ∧
    data ≡ₚ omap row_of recs ∧
    length data = length (filter has_value recs) ∧
    Forall (λ r, Inflation r ≠ JNull) data ∧
    StronglySorted dt_le (Date <$> data) ∧
    (NoDup (Date <$> data) → StronglySorted dt_lt (Date <$> data)).
Proof.
  intros Hvalid Hlen.
  unfold get_world_bank_inflation. simpl.
  rewrite (comprehension_valid _ Hvalid). simpl.
  pose proof (rows_length_valid _ Hvalid) as Hrows.
  rewrite <- Hrows in Hlen.
  destruct (sort_values_Date (omap row_of recs)) as [e|data] eqn:Hsort.
  { destruct (omap row_of recs); [simpl in Hlen; lia | done]. }
  apply sort_values_Date_sorted in Hsort as [Hperm Hsorted].
  exists data. split; [done|]. split; [done|].
  split; [by rewrite Hperm|]. split; [|split].
  - rewrite Hperm. apply Forall_forall. intros r Hr.
    apply list_elem_of_omap in Hr as (d & _ & Hd).
    by apply row_of_Inflation in Hd as [_ ?].
  - by apply StronglySorted_fmap_Date.
  - intros Hnd. by apply StronglySorted_strict; [apply StronglySorted_fmap_Date|].
Qed.

End Acquisition.

(** The hypotheses of [acquisition_sorted_by_date] hold of a response with
    a null record and two annual records. *)
Lemma acquisition_sorted_by_date_witness :
  ∃ data,
    @get_world_bank_inflation demo sample_response = inr data ∧
    data ≡ₚ omap (@row_of demo)
              [ record "2023" (JNum (2466 # 100)); record "2024" JNull;
                record "2022" (JNum (1885 # 100)) ] ∧
    length data = 2%nat ∧
    Forall (λ r, Inflation r ≠ JNull) data ∧
    StronglySorted dt_le (Date <$> data) ∧
    (NoDup (Date <$> data) → StronglySorted dt_lt (Date <$> data)).
Proof.
  apply (@acquisition_sorted_by_date demo meta
           [ record "2023" (JNum (2466 # 100)); record "2024" JNull;
             record "2022" (JNum (1885 # 100)) ] []).
  - vm_compute. reflexivity.
  - vm_compute. lia.
Defined.

(** C5, as stated, fails: two records for the same year are both kept, so
    the dates of the returned table are not strictly ascending. *)
Lemma repeated_year_not_strict :
  forallb (@valid_record demo)
    [ record "2020" (JNum (1325 # 100)); record "2020" (JNum (1140 # 100)) ] = true ∧
  length (filter has_value
    [ record "2020" (JNum (1325 # 100)); record "2020" (JNum (1140 # 100)) ]) = 2%nat ∧
  ∃ data,
    @get_world_bank_inflation demo repeated_year_response = inr data ∧
    Date <$> data = [date 2020 1 1; date 2020 1 1] ∧
    ¬ StronglySorted dt_lt (Date <$> data).
Proof.
  split; [by vm_compute|]. split; [by vm_compute|].
  eexists. split; [by vm_compute|]. split; [done|].
  intros Hs. apply StronglySorted_inv in Hs as [_ Hall].
  apply Forall_inv in Hall. by apply dt_lt_irrefl in Hall.
Qed.

(** ** Interactive input *)

Lemma replace_day1_fields now :
  year (replace_day1 now) = year now ∧ month (replace_day1 now) = month now ∧
  day (replace_day1 now) = 1 ∧ same_time_of_day (replace_day1 now) now.
Proof. by destruct now. Qed.

Lemma append_current_month_cases data value now :
  (replace_day1 now ∈ (Date <$> data) ∧
   append_current_month data value now = data)
  ∨ ((replace_day1 now ∉ (Date <$> data)) ∧
     append_current_month data value now
     = data ++ [mk_obs (replace_day1 now) (JNum value)]).
Proof.
  unfold append_current_month.
  destruct (decide (replace_day1 now ∉ (Date <$> data))) as [Hin|Hin];
    [by right|left].
  split; [|done]. by apply dec_stable.
Qed.

(** With two readings of the clock whose first-of-month timestamps differ
    (the times of day differ), the second run appends a second row. *)
Lemma interactive_input_later_clock value now1 now2 data :
  replace_day1 now2 ∉ (Date <$> data) →
  replace_day1 now1 ≠ replace_day1 now2 →
  length (interactive_input true value now2 (interactive_input true value now1 data))
  = S (length (interactive_input true value now1 data)).
Proof.
  intros Hfresh Hne. unfold interactive_input.
  destruct (append_current_month_cases
              (append_current_month data value now1) value now2)
    as [[Hin _]|[_ ->]].
  - exfalso. revert Hin.
    destruct (append_current_month_cases data value now1) as [[_ ->]|[_ ->]];
      [done|].
    rewrite fmap_app. intros [?|Hin]%elem_of_app; [done|].
    simpl in Hin. apply list_elem_of_singleton in Hin. by destruct Hne.
  - rewrite length_app. simpl. lia.
Qed.

(** C4: the code at two clock readings of the same calendar month, one
    second apart.  The first run takes the two-row series to three rows,
    the second run, with the same flag and value, takes it to four: the row
    of the current month is appended again. *)
Theorem second_input_appends_again :
  same_calendar_month clock1 clock2 ∧
  length (interactive_input true (219 # 10) clock1 sample) = 3%nat ∧
  length (interactive_input true (219 # 10) clock2
            (interactive_input true (219 # 10) clock1 sample)) = 4%nat ∧
  Date <$> interactive_input true (219 # 10) clock2
             (interactive_input true (219 # 10) clock1 sample)
  = [ date 2023 1 1; date 2023 2 1;
      mk_datetime 2023 3 1 10 0 0 0; mk_datetime 2023 3 1 10 0 1 0 ].
Proof. by vm_compute. Qed.

(** C10: the step leaves the series as it is, or appends one row at its
    end, dated the first day of the current month and holding the entered
    value; every row of the series stays at its position, unchanged. *)
Theorem interactive_input_frame enabled value now data :
  (∀ i r, data !! i = Some r →
          interactive_input enabled value now data !! i = Some r) ∧
  (interactive_input enabled value now data = data ∨
   (interactive_input enabled value now data
      = data ++ [mk_obs (replace_day1 now) (JNum value)] ∧
    same_calendar_month (replace_day1 now) now ∧
    day (replace_day1 now) = 1)).
Proof.
  unfold interactive_input. destruct enabled; [|by split; [|left]].
  destruct (append_current_month_cases data value now) as [[_ ->]|[_ ->]].
  - by split; [|left].
  - split.
    + intros i r Hi. by apply lookup_app_l_Some.
    + right. split; [done|]. by destruct now.
Qed.

(** ** The month-end date range *)

Lemma ym_lt_dt_lt a b : ym_lt a b → dt_lt a b.
Proof.
  unfold ym_lt, dt_lt, dt_ltb, dt_compare. destruct a, b; simpl.
  intros [Hy|[-> Hm]].
  - by apply Z.compare_lt_iff in Hy as ->.
  - rewrite Z.compare_refl. by apply Z.compare_lt_iff in Hm as ->.
Qed.

Lemma ym_lt_trans a b c : ym_lt a b → ym_lt b c → ym_lt a c.
Proof. unfold ym_lt. lia. Qed.

Lemma ym_lt_next_month_end d : ym_lt d (next_month_end d).
Proof.
  unfold ym_lt, next_month_end. simpl.
  destruct (Z.eqb_spec (month d) 12); lia.
Qed.

Lemma month_index_next_month_end d :
  month_index (next_month_end d) = month_index d + 1.
Proof.
  unfold month_index, next_month_end. simpl.
  destruct (Z.eqb_spec (month d) 12); lia.
Qed.

Lemma is_month_end_next d : is_month_end (next_month_end d).
Proof. done. Qed.

Lemma is_month_end_month_end_of d : is_month_end (month_end_of d).
Proof. done. Qed.

Lemma same_time_next_month_end d : same_time_of_day d (next_month_end d).
Proof. done. Qed.

Lemma length_month_ends d k : length (month_ends d k) = k.
Proof. revert d. induction k as [|k IH]; intros d; simpl; [done|]. by rewrite IH. Qed.

Lemma take_month_ends d k : take k (month_ends d (S k)) = month_ends d k.
Proof.
  revert d. induction k as [|k IH]; intros d; [done|].
  change (take (S k) (month_ends d (S (S k))))
    with (d :: take k (month_ends (next_month_end d) (S k))).
  by rewrite IH.
Qed.

(** The [i]-th element of the range: [i] months after the first. *)
Lemma month_ends_lookup d k i x :
  month_ends d k !! i = Some x →
  month_index x = month_index d + Z.of_nat i ∧
  same_time_of_day d x ∧
  (x = d ∨ (ym_lt d x ∧ is_month_end x)).
Proof.
  revert d i. induction k as [|k IH]; intros d i; [done|].
  destruct i as [|i]; simpl.
  - intros [= <-]. split; [lia|]. split; [done|]. by left.
  - intros Hx. apply IH in Hx as (Hidx & Htime & Hx).
    rewrite month_index_next_month_end in Hidx.
    split; [lia|]. split.
    { unfold same_time_of_day in *. simpl in Htime. done. }
    right. destruct Hx as [->|[Hlt Hend]].
    + split; [apply ym_lt_next_month_end | done].
    + split; [|done]. eapply ym_lt_trans; [apply ym_lt_next_month_end|done].
Qed.


Lemma ym_lt_month_end_of d x : ym_lt (month_end_of d) x → ym_lt d x.
Proof. done. Qed.

Example range_from_february_first :
  date_range_M (date 2023 2 1) 4
  = [date 2023 2 28; date 2023 3 31; date 2023 4 30; date 2023 5 31].
Proof. reflexivity. Qed.

Example month_ends_over_new_year :
  month_ends (first_month_end_after (date 2023 12 31)) 3
  = [date 2024 1 31; date 2024 2 29; date 2024 3 31].
Proof. reflexivity. Qed.

Example today_keeps_time_of_day :
  replace_day1 clock1 = mk_datetime 2023 3 1 10 0 0 0.
Proof. reflexivity. Qed.

Lemma filter_all {A} (P : A → Prop) `{∀ x, Decision (P x)} (l : list A) :
  Forall P l → filter P l = l.
Proof.
  induction 1 as [|x l Hx Hl IH]; [done|].
  rewrite filter_cons_True by done. by rewrite IH.
Qed.

(** What [make_future_dataframe] appends: the filter drops the first
    element of the range exactly when the last date is itself at or past
    the end of its month, and the cut to [periods] drops the spare one
    otherwise. *)
Lemma future_dates last n :
  take n (filter (dt_lt last) (date_range_M last (S n)))
  = month_ends (first_month_end_after last) n.
Proof.
  unfold date_range_M, first_month_end_after.
  change (month_ends (month_end_of last) (S n))
    with (month_end_of last :: month_ends (next_month_end (month_end_of last)) n).
  rewrite filter_cons.
  assert (Hrest : filter (dt_lt last)
                    (month_ends (next_month_end (month_end_of last)) n)
                  = month_ends (next_month_end (month_end_of last)) n).
  { apply filter_all. apply Forall_forall.
    intros x [i Hi]%list_elem_of_lookup.
    apply month_ends_lookup in Hi as (_ & _ & [->|[Hlt _]]); apply ym_lt_dt_lt.
    - apply ym_lt_month_end_of, ym_lt_next_month_end.
    - apply ym_lt_month_end_of.
      eapply ym_lt_trans; [apply ym_lt_next_month_end|done]. }
  rewrite Hrest.
  destruct (decide (dt_lt last (month_end_of last))) as [Hlt|Hlt].
  - unfold dt_lt in Hlt. rewrite Hlt.
    change (month_end_of last :: month_ends (next_month_end (month_end_of last)) n)
      with (month_ends (month_end_of last) (S n)).
    apply take_month_ends.
  - unfold dt_lt in Hlt. apply not_true_is_false in Hlt. rewrite Hlt.
    apply take_ge. by rewrite length_month_ends.
Qed.

Lemma first_month_end_after_spec last :
  is_month_end (first_month_end_after last) ∧
  dt_lt last (first_month_end_after last) ∧
  same_time_of_day last (first_month_end_after last) ∧
  month_index last ≤ month_index (first_month_end_after last) ≤ month_index last + 1.
Proof.
  unfold first_month_end_after.
  destruct (dt_ltb last (month_end_of last)) eqn:Hlt.
  - split; [done|]. split; [done|]. split; [done|].
    unfold month_index. simpl. lia.
  - split; [done|]. split.
    { apply ym_lt_dt_lt, ym_lt_month_end_of, ym_lt_next_month_end. }
    split; [done|].
    rewrite month_index_next_month_end. unfold month_index. simpl. lia.
Qed.

(** ** The forecast engine *)

Lemma dt_max_spec a b :
  (dt_max a b = a ∨ dt_max a b = b) ∧ dt_le a (dt_max a b) ∧ dt_le b (dt_max a b).
Proof.
  unfold dt_max. destruct (dt_leb a b) eqn:Hab.
  - split; [by right|]. split; [done|reflexivity].
  - split; [by left|]. split; [reflexivity|].
    destruct (dt_le_total a b) as [Hle|Hle]; [|done].
    unfold dt_le in Hle. congruence.
Qed.

Lemma foldr_dt_max_spec d l :
  (foldr dt_max d l = d ∨ foldr dt_max d l ∈ l) ∧
  dt_le d (foldr dt_max d l) ∧
  Forall (λ y, dt_le y (foldr dt_max d l)) l.
Proof.
  induction l as [|y l (Hmem & Hd & Hall)]; simpl.
  - split; [by left|]. split; [reflexivity|constructor].
  - destruct (dt_max_spec y (foldr dt_max d l)) as (Hcase & Hy & Hr).
    split; [|split].
    + destruct Hcase as [->| ->].
      * right. apply list_elem_of_here.
      * destruct Hmem as [->|Hmem]; [by left|]. right. by apply list_elem_of_further.
    + by etrans.
    + constructor; [done|].
      eapply Forall_impl; [exact Hall|]. intros z Hz. simpl in Hz. by etrans.
Qed.

(** [max_date] returns an element of the list that bounds all of it. *)
Lemma max_date_spec l x :
  max_date l = Some x → x ∈ l ∧ ∀ d, d ∈ l → dt_le d x.
Proof.
  destruct l as [|d l]; [done|]. simpl. intros [= <-].
  destruct (foldr_dt_max_spec d l) as (Hmem & Hd & Hall).
  split.
  - destruct Hmem as [->|Hmem]; [apply list_elem_of_here|].
    by apply list_elem_of_further.
  - intros z [->|Hz]%elem_of_cons; [done|].
    rewrite Forall_forall in Hall. by apply Hall.
Qed.

Lemma max_date_None l : max_date l = None → l = [].
Proof. by destruct l. Qed.

Lemma elem_of_history_dates (l : list datetime) d :
  d ∈ merge_sort dt_le (remove_dups l) ↔ d ∈ l.
Proof. rewrite merge_sort_Permutation. apply elem_of_remove_dups. Qed.

Lemma rename_ds_y_dates data : in_ds <$> rename_ds_y data = Date <$> data.
Proof. unfold rename_ds_y. rewrite <- list_fmap_compose. done. Qed.

Section Forecast.
Context `{Libraries}.

Lemma predict_ds m future : ds <$> predict m future = future.
Proof.
  unfold predict. apply list_eq. intros i.
  rewrite list_lookup_fmap, list_lookup_imap.
  by destruct (future !! i).
Qed.

Lemma predict_bracketed m future :
  (∀ h fut i, (est_lower (prophet_estimate h fut i)
               <= est_yhat (prophet_estimate h fut i))%Q ∧
              (est_yhat (prophet_estimate h fut i)
               <= est_upper (prophet_estimate h fut i))%Q) →
  Forall (λ r, (yhat_lower r <= yhat r)%Q ∧ (yhat r <= yhat_upper r)%Q)
         (predict m future).
Proof.
  intros Hest. apply Forall_forall. intros r [i Hi]%list_elem_of_lookup.
  unfold predict in Hi. rewrite list_lookup_imap in Hi.
  destruct (future !! i); [|done]. simpl in Hi. injection Hi as <-.
  simpl. apply Hest.
Qed.

(** A successful fit means a series of at least two rows. *)
Lemma fit_inr df m :
  fit df = inr m →
  (2 ≤ length df)%nat ∧
  history_dates m = merge_sort dt_le (remove_dups (in_ds <$> df)).
Proof.
  unfold fit.
  destruct (Nat.ltb_spec (length (filter (λ r, is_None (in_y r) = false) df)) 2)
    as [|Hlen]; [done|].
  destruct (prophet_fits df); [|done]. intros [= <-]. simpl.
  split; [|done].
  pose proof (length_filter (λ r, is_None (in_y r) = false) df). lia.
Qed.

(** The timestamps of a forecast: the distinct dates of the series in
    ascending order, then the [n] month ends that follow its last date. *)
Lemma forecast_inflation_dates data n forecast :
  forecast_inflation data n = inr forecast →
  ∃ last,
    last ∈ (Date <$> data) ∧ (∀ d, d ∈ (Date <$> data) → dt_le d last) ∧
    ds <$> forecast
    = merge_sort dt_le (remove_dups (Date <$> data))
      ++ month_ends (first_month_end_after last) n.
Proof.
  unfold forecast_inflation. simpl.
  destruct (fit (rename_ds_y data)) as [e|m] eqn:Hfit; [done|].
  simpl. intros [= <-].
  apply fit_inr in Hfit as [Hlen Hdates].
  rewrite rename_ds_y_dates in Hdates.
  rewrite predict_ds. unfold make_future_dataframe. rewrite Hdates.
  destruct (max_date (merge_sort dt_le (remove_dups (Date <$> data))))
    as [last|] eqn:Hmax.
  - apply max_date_spec in Hmax as [Hin Hub].
    exists last. split; [by apply elem_of_history_dates|].
    split.
    + intros d Hd. by apply Hub, elem_of_history_dates.
    + by rewrite future_dates.
  - apply max_date_None in Hmax.
    unfold rename_ds_y in Hlen. rewrite length_fmap in Hlen.
    destruct data as [|r data]; [simpl in Hlen; lia|].
    assert (Date r ∈ merge_sort dt_le (remove_dups (Date <$> r :: data))) as Hr.
    { apply elem_of_history_dates. apply list_elem_of_here. }
    rewrite Hmax in Hr. by apply elem_of_nil in Hr.
Qed.

End Forecast.

(** ** The forecast table *)

Lemma tail_app_length {A} (l k : list A) : tail (length k) (l ++ k) = k.
Proof.
  unfold tail. rewrite length_app.
  replace (length l + length k - length k)%nat with (length l) by lia.
  apply drop_app_length.
Qed.

Lemma fmap_tail {A B} (f : A → B) n (l : list A) : f <$> tail n l = tail n (f <$> l).
Proof. unfold tail. by rewrite fmap_drop, length_fmap. Qed.

Lemma length_tail {A} n (l : list A) : length (tail n l) = Nat.min n (length l).
Proof. unfold tail. rewrite length_drop. lia. Qed.

Lemma display_columns forecast n :
  columns (forecast_display forecast n)
  = ["Date"; "Forecast"; "Lower Bound"; "Upper Bound"].
Proof. by vm_compute. Qed.

Lemma display_rows forecast n :
  snd <$> rows (forecast_display forecast n)
  = tail n ((λ r, [CDate (ds r); CNum (yhat r);
                   CNum (yhat_lower r); CNum (yhat_upper r)]) <$> forecast).
Proof.
  unfold forecast_display, rename, table_tail, select_columns. simpl.
  rewrite fmap_tail. f_equal. apply list_eq. intros i.
  rewrite !list_lookup_fmap, list_lookup_imap. by destruct (forecast !! i).
Qed.

Lemma display_first_column forecast n :
  first_column (forecast_display forecast n) = CDate <$> tail n (ds <$> forecast).
Proof.
  unfold first_column.
  trans (hd (CInt 0) <$> (snd <$> rows (forecast_display forecast n))).
  { by rewrite <- list_fmap_compose. }
  rewrite display_rows, !fmap_tail. f_equal.
  by rewrite <- !list_fmap_compose.
Qed.

Lemma display_length forecast n :
  length (rows (forecast_display forecast n)) = Nat.min n (length forecast).
Proof.
  rewrite <- (length_fmap snd), display_rows, length_tail. by rewrite length_fmap.
Qed.

Lemma display_bracketed forecast n :
  Forall (λ r, (yhat_lower r <= yhat r)%Q ∧ (yhat r <= yhat_upper r)%Q) forecast →
  Forall (λ r, bracketed r.2) (rows (forecast_display forecast n)).
Proof.
  intros Hall.
  cut (Forall bracketed (snd <$> rows (forecast_display forecast n))).
  { by rewrite Forall_fmap. }
  rewrite display_rows. unfold tail. apply Forall_drop. rewrite Forall_fmap.
  eapply Forall_impl; [exact Hall|]. by intros r [??].
Qed.

Lemma dt_lt_trans a b c : dt_lt a b → dt_lt b c → dt_lt a c.
Proof.
  rewrite !dt_lt_le_ne. intros [Hab Hne] [Hbc Hne'].
  split; [by etrans|]. intros ->.
  apply Hne. by apply (anti_symm dt_le).
Qed.

Section Table.
Context `{Libraries}.

Lemma forecast_inflation_bracketed data n forecast :
  (∀ h fut i, (est_lower (prophet_estimate h fut i)
               <= est_yhat (prophet_estimate h fut i))%Q ∧
              (est_yhat (prophet_estimate h fut i)
               <= est_upper (prophet_estimate h fut i))%Q) →
  forecast_inflation data n = inr forecast →
  Forall (λ r, (yhat_lower r <= yhat r)%Q ∧ (yhat r <= yhat_upper r)%Q) forecast.
Proof.
  intros Hest. unfold forecast_inflation. simpl.
  destruct (fit (rename_ds_y data)) as [e|m]; [done|].
  simpl. intros [= <-]. by apply predict_bracketed.
Qed.

(** C2: when the model fits, the displayed table has exactly [n] rows and
    its dates are the [n] consecutive month ends that follow the last
    date of the series: each is the last day of its month, lies strictly
    after the last historical date, and falls one month after the one
    before it, the first in the month of the last historical date or the
    month after. *)
Theorem forecast_table_covers_horizon data n forecast :
  forecast_inflation data n = inr forecast →
  ∃ last,
    last ∈ (Date <$> data) ∧ (∀ d, d ∈ (Date <$> data) → dt_le d last) ∧
    columns (forecast_display forecast n)
      = ["Date"; "Forecast"; "Lower Bound"; "Upper Bound"] ∧
    length (rows (forecast_display forecast n)) = n ∧
    first_column (forecast_display forecast n)
      = CDate <$> month_ends (first_month_end_after last) n ∧
    month_index last ≤ month_index (first_month_end_after last)
                     ≤ month_index last + 1 ∧
    ∀ i d, month_ends (first_month_end_after last) n !! i = Some d →
           is_month_end d ∧ dt_lt last d ∧
           month_index d
           = month_index (first_month_end_after last) + Z.of_nat i.
Proof.
  intros Hf. apply forecast_inflation_dates in Hf as (last & Hin & Hub & Hds).
  destruct (first_month_end_after_spec last) as (Hend & Hlt & _ & Hidx).
  exists last. split; [done|]. split; [done|].
  split; [apply display_columns|].
  assert (Htail : tail n (ds <$> forecast)
                  = month_ends (first_month_end_after last) n).
  { rewrite Hds.
    rewrite <- (length_month_ends (first_month_end_after last) n) at 1.
    apply tail_app_length. }
  split; [|split; [|split; [done|]]].
  - rewrite display_length.
    rewrite <- (length_fmap ds), Hds, length_app, length_month_ends. lia.
  - by rewrite display_first_column, Htail.
  - intros i d Hi.
    apply month_ends_lookup in Hi as (Hi & _ & [->|[Hym Hd]]).
    + done.
    + split; [done|]. split; [|done].
      eapply dt_lt_trans; [exact Hlt|]. by apply ym_lt_dt_lt.
Qed.


End Table.

(** The two-point series fits with the stand-in predictor. *)
Lemma forecast_table_covers_horizon_witness :
  ∃ last,
    last ∈ (Date <$> sample) ∧ (∀ d, d ∈ (Date <$> sample) → dt_le d last) ∧
    columns (forecast_display sample_forecast 3)
      = ["Date"; "Forecast"; "Lower Bound"; "Upper Bound"] ∧
    length (rows (forecast_display sample_forecast 3)) = 3%nat ∧
    first_column (forecast_display sample_forecast 3)
      = CDate <$> month_ends (first_month_end_after last) 3 ∧
    month_index last ≤ month_index (first_month_end_after last)
                     ≤ month_index last + 1 ∧
    ∀ i d, month_ends (first_month_end_after last) 3 !! i = Some d →
           is_month_end d ∧ dt_lt last d ∧
           month_index d = month_index (first_month_end_after last) + Z.of_nat i.
Proof.
  apply (@forecast_table_covers_horizon demo sample 3 sample_forecast).
  vm_compute. reflexivity.
Defined.



(** ** The script as a whole *)

Ltac run_script :=
  unfold render, run, app, mbind, script_bind, emit, lift, mret, script_ret;
  simpl.

(** A malformed record makes the comprehension raise, wherever it stands
    in the list. *)
Lemma comprehension_malformed `{Libraries} recs :
  existsb malformed_record recs = true → ∃ e, comprehension recs = inl e.
Proof.
  induction recs as [|d recs IH]; [done|].
  simpl. intros [Hd|Hrecs]%orb_prop.
  - unfold malformed_record in Hd.
    destruct (getitem_str "value" d) as [e|v]; simpl; [by eexists|].
    apply andb_prop in Hd as [Hv Hdate]. apply negb_true_iff in Hv. rewrite Hv.
    destruct (getitem_str "date" d) as [e|dj]; [|done]. by eexists.
  - destruct (IH Hrecs) as [e He]. rewrite He.
    destruct (getitem_str "value" d) as [e'|v]; simpl; [by eexists|].
    destruct (is_None v); [by eexists|].
    destruct (getitem_str "date" d) as [e'|dj]; simpl; [by eexists|].
    destruct (to_datetime dj) as [e'|t]; simpl; by eexists.
Qed.

Section Script.
Context `{Libraries}.

Lemma render_acquisition_error r e inp now :
  get_world_bank_inflation r = inl e →
  render r inp now = (page_head, inl e).
Proof. intros Hr. run_script. by rewrite Hr. Qed.

Lemma render_fit_error r data e inp now :
  get_world_bank_inflation r = inr data →
  forecast_inflation
    (interactive_input (input_current inp) (current_inflation inp) now data)
    (forecast_period inp) = inl e →
  render r inp now = (page_inputs data inp, inl e).
Proof.
  intros Hr Hf. unfold page_inputs, interactive_input in *. run_script.
  rewrite Hr. simpl. destruct (input_current inp); simpl; by rewrite Hf.
Qed.

Lemma render_success r data forecast inp now :
  get_world_bank_inflation r = inr data →
  forecast_inflation
    (interactive_input (input_current inp) (current_inflation inp) now data)
    (forecast_period inp) = inr forecast →
  render r inp now =
    (page_inputs data inp ++
     [ plotly_chart
         (chart (interactive_input (input_current inp) (current_inflation inp)
                                   now data) forecast);
       expander "📅 Show Forecasted Values"
         [dataframe (forecast_display forecast (forecast_period inp))];
       download_button "📥 Download Forecast as CSV"
         (to_csv false (forecast_display forecast (forecast_period inp)))
         "nigeria_inflation_forecast.csv" "text/csv" ],
     inr tt).
Proof.
  intros Hr Hf. unfold page_inputs, interactive_input in *. run_script.
  rewrite Hr. simpl. destruct (input_current inp); simpl; by rewrite Hf.
Qed.

(** The three ways a run can end. *)
Lemma render_cases r inp now :
  (∃ e, get_world_bank_inflation r = inl e ∧
        render r inp now = (page_head, inl e)) ∨
  (∃ data e, get_world_bank_inflation r = inr data ∧
             render r inp now = (page_inputs data inp, inl e)) ∨
  (∃ data forecast,
     get_world_bank_inflation r = inr data ∧
     forecast_inflation
       (interactive_input (input_current inp) (current_inflation inp) now data)
       (forecast_period inp) = inr forecast ∧
     render r inp now =
       (page_inputs data inp ++
        [ plotly_chart
            (chart (interactive_input (input_current inp)
                      (current_inflation inp) now data) forecast);
          expander "📅 Show Forecasted Values"
            [dataframe (forecast_display forecast (forecast_period inp))];
          download_button "📥 Download Forecast as CSV"
            (to_csv false (forecast_display forecast (forecast_period inp)))
            "nigeria_inflation_forecast.csv" "text/csv" ],
        inr tt)).
Proof.
  destruct (get_world_bank_inflation r) as [e|data] eqn:Hr.
  { left. exists e. split; [done|]. by apply render_acquisition_error. }
  right.
  destruct (forecast_inflation
              (interactive_input (input_current inp) (current_inflation inp)
                                 now data)
              (forecast_period inp)) as [e|forecast] eqn:Hf.
  - left. exists data, e. split; [done|]. by apply render_fit_error.
  - right. exists data, forecast. split; [done|]. split; [done|].
    by apply render_success.
Qed.

Lemma raw_views_page_inputs data inp :
  raw_views (page_inputs data inp) = [tail 12 data].
Proof. unfold page_inputs. by destruct (input_current inp). Qed.

Lemma shown_tables_page_inputs data inp : shown_tables (page_inputs data inp) = [].
Proof. unfold page_inputs. by destruct (input_current inp). Qed.

Lemma downloads_page_inputs data inp : downloads (page_inputs data inp) = [].
Proof. unfold page_inputs. by destruct (input_current inp). Qed.

(** C9: the raw-data view of a run shows the last 12 rows of the acquired
    series (and there is none when the acquisition raises); it is the same
    for any state of the checkbox, any entered value, any horizon and any
    reading of the clock. *)
Theorem raw_view_ignores_manual_input r inp now :
  raw_views (render r inp now).1
    = match get_world_bank_inflation r with
      | inr data => [tail 12 data]
      | inl _ => []
      end
  ∧ ∀ inp' now', raw_views (render r inp' now').1 = raw_views (render r inp now).1.
Proof.
  assert (Hview : ∀ inp now,
             raw_views (render r inp now).1
             = match get_world_bank_inflation r with
               | inr data => [tail 12 data]
               | inl _ => []
               end).
  { clear. intros inp now.
    destruct (render_cases r inp now)
      as [(e & -> & ->)|[(data & e & -> & ->)|(data & f & -> & _ & ->)]];
      cbn [fst].
    - done.
    - apply raw_views_page_inputs.
    - unfold raw_views. rewrite omap_app. fold (raw_views (page_inputs data inp)).
      rewrite raw_views_page_inputs. done. }
  split; [apply Hview|]. intros inp' now'. by rewrite !Hview.
Qed.

(** C8 (amended): when the request raises, the body has no second element,
    a record has no [value], or a record with a non-null [value] has no
    [date], the acquisition raises; the run ends with that same exception,
    and the page holds only its configuration and title: no raw-data view,
    chart, table or download. *)
Theorem acquisition_failure_aborts r :
  bad_response r = true →
  ∃ e, get_world_bank_inflation r = inl e ∧
       (∀ inp now, render r inp now = (page_head, inl e)) ∧
       raw_views page_head = [] ∧ shown_tables page_head = [] ∧
       downloads page_head = [].
Proof.
  intros Hbad.
  cut (∃ e, get_world_bank_inflation r = inl e).
  { intros [e He]. exists e. split; [done|]. split; [|done].
    intros inp now. by apply render_acquisition_error. }
  unfold get_world_bank_inflation.
  destruct r as [|[j|]]; [by eexists| |done].
  destruct j as [| | | |l|]; try done.
  destruct l as [|x [|y l]]; [by eexists|by eexists|].
  destruct y as [| | | |recs|]; try done. simpl in *.
  destruct (comprehension_malformed recs Hbad) as [e ->]. by eexists.
Qed.


End Script.

(** A response with a record that lacks [value] is a failure of the
    acquisition step. *)
Lemma acquisition_failure_aborts_witness :
  ∃ e, @get_world_bank_inflation demo valueless_response = inl e ∧
       (∀ inp now, @render demo valueless_response inp now = (page_head, inl e)) ∧
       raw_views page_head = [] ∧ shown_tables page_head = [] ∧
       downloads page_head = [].
Proof.
  apply (@acquisition_failure_aborts demo valueless_response).
  vm_compute. reflexivity.
Defined.

(** C8, as stated, fails: a record without [date] raises nothing when its
    [value] is null; the acquisition returns the other two records and the
    run completes. *)
Lemma dateless_null_record_is_skipped :
  getitem_str "date" (JObj (<["value" := JNull]> ∅)) = inl (KeyError "date") ∧
  @get_world_bank_inflation demo dateless_null_response
    = inr [ mk_obs (date 2022 1 1) (JNum (1885 # 100));
            mk_obs (date 2023 1 1) (JNum (2466 # 100)) ] ∧
  (@render demo dateless_null_response sample_inputs clock1).2 = inr tt.
Proof. split; [by vm_compute|]. split; by vm_compute. Qed.


(** * Further properties of the script *)

(** ** Data acquisition: when it returns and what it returns *)

Section AcquisitionShape.
Context `{Libraries}.

(** A comprehension that returns has met only valid records, and its rows
    are those of the records with a value. *)
Lemma comprehension_inr recs rows :
  comprehension recs = inr rows →
  forallb valid_record recs = true ∧ rows = omap row_of recs.
Proof.
  revert rows. induction recs as [|d recs IH]; intros rows.
  { by intros [= <-]. }
  change (omap row_of (d :: recs))
    with (match row_of d with
          | Some r => r :: omap row_of recs
          | None => omap row_of recs
          end).
  cbn [comprehension forallb]. unfold valid_record at 1, row_of at 1.
  destruct (getitem_str "value" d) as [e|v]; simpl; [done|].
  destruct (is_None v); simpl.
  { intros Hrows. by apply IH in Hrows. }
  destruct (getitem_str "date" d) as [e|dj]; simpl; [done|].
  destruct (to_datetime dj) as [e|t]; simpl; [done|].
  destruct (comprehension recs) as [e|tl]; simpl; [done|].
  intros [= <-]. by destruct (IH tl eq_refl) as [-> ->].
Qed.

Lemma comprehension_null_valued recs :
  forallb null_valued recs = true → comprehension recs = inr [].
Proof.
  induction recs as [|d recs IH]; [done|].
  simpl. intros [Hd Hrecs]%andb_prop. unfold null_valued in Hd.
  destruct (getitem_str "value" d) as [e|v]; [done|]. simpl.
  rewrite Hd. by apply IH.
Qed.

(** The acquisition on a body of the documented shape, in one equation. *)
Lemma get_world_bank_inflation_list x recs more :
  get_world_bank_inflation (response (Some (JArr (x :: JArr recs :: more))))
  = comprehension recs ≫= sort_values_Date.
Proof. done. Qed.

(** X1: when no record has a value (all are null, or the list is empty),
    the acquisition does not return an empty table: the sort on the
    column-less frame raises [KeyError: 'Date']. *)
Theorem acquisition_without_values_raises x recs more :
  forallb null_valued recs = true →
  get_world_bank_inflation (response (Some (JArr (x :: JArr recs :: more))))
  = inl (KeyError "Date").
Proof.
  intros Hnull. rewrite get_world_bank_inflation_list.
  by rewrite (comprehension_null_valued _ Hnull).
Qed.

(** X3: a table is returned only for a body that is an array whose second
    element is a list; the table is never empty, and its rows are the rows
    of the records with a value, rearranged. *)
Theorem acquisition_returns_only_for_lists r data :
  get_world_bank_inflation r = inr data →
  ∃ x recs more,
    r = response (Some (JArr (x :: JArr recs :: more))) ∧
    data ≡ₚ omap row_of recs ∧ data ≠ [].
Proof.
  unfold get_world_bank_inflation.
  destruct r as [|[j|]]; [done| |done].
  destruct j as [| | |s|l|m]; try done.
  { (* a string: its second character is a string again *)
    simpl. destruct (String.get 1 s); done. }
  destruct l as [|x [|y more]]; [done|done|].
  assert (Hraise : ∀ l : list json,
             (l = [] ∨ ∃ s l', l = JStr s :: l') →
             comprehension l ≫= sort_values_Date = inr data → False).
  { intros l [->|(s & l' & ->)]; done. }
  destruct y as [| | |s|recs|m]; try done.
  - (* a string: iterated by character *)
    intros Hdata. exfalso. apply (Hraise (chars s)); [|done].
    destruct s; [by left|right]. by eexists _, _.
  - intros Hdata. exists x, recs, more. split; [done|].
    change (comprehension recs ≫= sort_values_Date = inr data) in Hdata.
    destruct (comprehension recs) as [e|rows] eqn:Hrows; [done|].
    apply comprehension_inr in Hrows as [_ ->]. simpl in Hdata.
    apply sort_values_Date_sorted in Hdata as Hsorted.
    destruct Hsorted as [Hperm _]. split; [done|].
    intros ->. apply Permutation_nil in Hperm.
    by rewrite Hperm in Hdata.
  - (* a dict: iterated by key *)
    intros Hdata. exfalso. apply (Hraise (JStr <$> (map_to_list m).*1)); [|done].
    destruct ((map_to_list m).*1); [by left|right]. by eexists _, _.
Qed.

(** X4: when the dates of the table are all distinct, its rows, that is the
    Date and Inflation cells in their sorted order, do not depend on the
    order in which the response lists the records.  (The index labels, which
    the sort carries along from the order of the response, are not part of
    [obs]; this says nothing of them.) *)
Theorem acquisition_ignores_record_order x recs more x' recs' more' data :
  recs ≡ₚ recs' →
  get_world_bank_inflation (response (Some (JArr (x :: JArr recs :: more))))
    = inr data →
  NoDup (Date <$> data) →
  get_world_bank_inflation (response (Some (JArr (x' :: JArr recs' :: more'))))
    = inr data.
Proof.
  intros Hperm. rewrite !get_world_bank_inflation_list. intros Hdata Hnd.
  destruct (comprehension recs) as [e|rows] eqn:Hrows; [done|].
  apply comprehension_inr in Hrows as [Hvalid ->]. simpl in Hdata.
  assert (Hvalid' : forallb valid_record recs' = true).
  { apply Is_true_true, forallb_True. rewrite <- Hperm.
    by apply forallb_True, Is_true_true. }
  rewrite (comprehension_valid _ Hvalid'). simpl.
  destruct (sort_values_Date (omap row_of recs')) as [e|data'] eqn:Hdata'.
  { exfalso. destruct (omap row_of recs') eqn:Hrows'; [|done].
    assert (omap row_of recs ≡ₚ []) as Hnil by (by rewrite Hperm, Hrows').
    apply Permutation_nil_r in Hnil. by rewrite Hnil in Hdata. }
  apply sort_values_Date_sorted in Hdata as [Hp Hs].
  apply sort_values_Date_sorted in Hdata' as [Hp' Hs'].
  f_equal. symmetry.
  apply (StronglySorted_unique_strong by_Date); [|done|done|].
  - intros r1 r2 Hr1 Hr2 H12 H21.
    assert (Date r1 = Date r2) as Hd by (by apply (anti_symm dt_le)).
    assert (r2 ∈ data) as Hr2'.
    { rewrite Hp, Hperm, <- Hp'. done. }
    clear -Hnd Hr1 Hr2' Hd.
    induction data as [|r data IH]; [by apply elem_of_nil in Hr1|].
    simpl in Hnd. apply NoDup_cons in Hnd as [Hr Hnd].
    apply elem_of_cons in Hr1 as [->|Hr1], Hr2' as [->|Hr2']; [done| | |by apply IH].
    + destruct Hr. rewrite Hd. by apply list_elem_of_fmap_2.
    + destruct Hr. rewrite <- Hd. by apply list_elem_of_fmap_2.
  - by rewrite Hp, Hperm, <- Hp'.
Qed.

End AcquisitionShape.

Lemma acquisition_without_values_raises_witness :
  @get_world_bank_inflation demo null_only_response = inl (KeyError "Date").
Proof.
  apply (@acquisition_without_values_raises demo meta [record "2024" JNull] []).
  reflexivity.
Defined.

Lemma acquisition_returns_only_for_lists_witness :
  ∃ x recs more,
    sample_response = response (Some (JArr (x :: JArr recs :: more))) ∧
    [ mk_obs (date 2022 1 1) (JNum (1885 # 100));
      mk_obs (date 2023 1 1) (JNum (2466 # 100)) ] ≡ₚ omap (@row_of demo) recs ∧
    [ mk_obs (date 2022 1 1) (JNum (1885 # 100));
      mk_obs (date 2023 1 1) (JNum (2466 # 100)) ] ≠ [].
Proof.
  apply (@acquisition_returns_only_for_lists demo sample_response).
  vm_compute. reflexivity.
Defined.

Lemma acquisition_ignores_record_order_witness :
  @get_world_bank_inflation demo reordered_response
  = inr [ mk_obs (date 2022 1 1) (JNum (1885 # 100));
          mk_obs (date 2023 1 1) (JNum (2466 # 100)) ].
Proof.
  apply (@acquisition_ignores_record_order demo meta
           [ record "2023" (JNum (2466 # 100)); record "2024" JNull;
             record "2022" (JNum (1885 # 100)) ] [] meta
           [ record "2022" (JNum (1885 # 100));
             record "2023" (JNum (2466 # 100)); record "2024" JNull ] []).
  - symmetry.
    exact (Permutation_cons_append
             [record "2023" (JNum (2466 # 100)); record "2024" JNull]
             (record "2022" (JNum (1885 # 100)))).
  - vm_compute. reflexivity.
  - apply (bool_decide_unpack _). vm_compute. exact I.
Defined.

(** ** Interactive input: what the date guard compares *)

Lemma at_midnight_replace_day1 now : at_midnight (replace_day1 now) = at_midnight now.
Proof. done. Qed.

(** X6: the guard compares whole timestamps.  When every date of the
    series is at midnight and the clock is not, the row is appended
    whatever the series holds, a row for the current month included. *)
Theorem midnight_rows_never_block value now data :
  Forall (λ r, at_midnight (Date r) = true) data →
  at_midnight now = false →
  interactive_input true value now data
  = data ++ [mk_obs (replace_day1 now) (JNum value)].
Proof.
  intros Hdata Hnow. unfold interactive_input.
  destruct (append_current_month_cases data value now) as [[Hin _]|[_ ->]];
    [|done].
  apply list_elem_of_fmap in Hin as (r & Hr & Hin).
  rewrite Forall_forall in Hdata. apply Hdata in Hin.
  rewrite <- Hr, at_midnight_replace_day1 in Hin. congruence.
Qed.

Lemma midnight_rows_never_block_witness :
  interactive_input true (221 # 10) clock1 march_series
  = march_series ++ [mk_obs (mk_datetime 2023 3 1 10 0 0 0) (JNum (221 # 10))].
Proof.
  apply (midnight_rows_never_block (221 # 10) clock1 march_series).
  - repeat constructor.
  - reflexivity.
Defined.

(** ** The forecast frame *)



Lemma month_ends_take d n m :
  (n ≤ m)%nat → month_ends d n = take n (month_ends d m).
Proof.
  revert d m. induction n as [|n IH]; intros d m Hnm; [done|].
  destruct m as [|m]; [lia|]. simpl. f_equal. apply IH. lia.
Qed.


Lemma days_in_month_lower y m : 28 ≤ days_in_month y m.
Proof.
  unfold days_in_month.
  destruct (m =? 2); [destruct (is_leap y); lia|].
  destruct ((m =? 4) || (m =? 6) || (m =? 9) || (m =? 11)); lia.
Qed.

Lemma dt_ltb_same_month a b :
  year a = year b → month a = month b → day a < day b → dt_ltb a b = true.
Proof.
  destruct a, b. simpl. intros -> -> Hlt.
  unfold dt_ltb, dt_compare. simpl. rewrite !Z.compare_refl.
  by apply Z.compare_lt_iff in Hlt as ->.
Qed.

(** On the first day of a month the next month end is the end of that
    same month. *)
Lemma first_month_end_after_day1 now :
  first_month_end_after (replace_day1 now) = month_end_of now.
Proof.
  unfold first_month_end_after.
  rewrite dt_ltb_same_month; [done..|].
  pose proof (days_in_month_lower (year now) (month now)).
  cbn [day replace_day1 month_end_of year month]. lia.
Qed.

(** The greatest date of a series is unique. *)
Lemma last_date_unique (l : list datetime) a b :
  a ∈ l → (∀ d, d ∈ l → dt_le d a) →
  b ∈ l → (∀ d, d ∈ l → dt_le d b) → a = b.
Proof. intros Ha Hua Hb Hub. apply (anti_symm dt_le); auto. Qed.

Section ForecastFrame.
Context `{Libraries}.

(** The dates of the displayed table, from the dates of the forecast. *)
Lemma forecast_display_dates data n forecast :
  forecast_inflation data n = inr forecast →
  ∃ last,
    last ∈ (Date <$> data) ∧ (∀ d, d ∈ (Date <$> data) → dt_le d last) ∧
    first_column (forecast_display forecast n)
    = CDate <$> month_ends (first_month_end_after last) n.
Proof.
  intros (last & Hin & Hub & Hds)%forecast_inflation_dates.
  exists last. split; [done|]. split; [done|].
  rewrite display_first_column, Hds. f_equal.
  rewrite <- (length_month_ends (first_month_end_after last) n) at 1.
  apply tail_app_length.
Qed.


Lemma length_forecast data n forecast :
  forecast_inflation data n = inr forecast →
  length (ds <$> forecast) = (length (remove_dups (Date <$> data)) + n)%nat.
Proof.
  intros (last & _ & _ & Hds)%forecast_inflation_dates.
  rewrite Hds, length_app, length_month_ends.
  by rewrite merge_sort_Permutation.
Qed.

(** X8: a forecast has one row for each distinct date of the series and
    one for each month of the horizon. *)
Theorem forecast_length data n forecast :
  forecast_inflation data n = inr forecast →
  length forecast = (length (remove_dups (Date <$> data)) + n)%nat.
Proof. intros Hf. rewrite <- (length_fmap ds). by apply length_forecast. Qed.

(** X9: longer horizons only add later months: the dates of the table for
    a horizon [n] are the first [n] dates of the table for any horizon
    [m >= n]. *)
Theorem longer_horizon_extends_table data n m forecast forecast' :
  forecast_inflation data n = inr forecast →
  forecast_inflation data m = inr forecast' →
  (n ≤ m)%nat →
  first_column (forecast_display forecast n)
  = take n (first_column (forecast_display forecast' m)).
Proof.
  intros (last & Hin & Hub & ->)%forecast_display_dates
         (last' & Hin' & Hub' & ->)%forecast_display_dates Hnm.
  rewrite (last_date_unique _ last' last) by done.
  by rewrite <- fmap_take, <- month_ends_take.
Qed.

(** X10: the row labels of the displayed table are the positions of its
    rows in the whole forecast: they start at the number of distinct
    historical dates, not at 0. *)
Theorem table_index_labels data n forecast :
  forecast_inflation data n = inr forecast →
  index (forecast_display forecast n)
  = seq (length (remove_dups (Date <$> data))) n.
Proof.
  intros Hf. pose proof (length_forecast _ _ _ Hf) as Hlen. clear Hf.
  rewrite length_fmap in Hlen.
  unfold index, forecast_display, rename, table_tail, select_columns. simpl.
  rewrite fmap_tail, fmap_imap.
  rewrite (imap_ext _ (λ i _, id i)) by done.
  rewrite imap_seq_0, list_fmap_id.
  unfold tail. rewrite length_seq, drop_seq, Hlen. f_equal; lia.
Qed.

(** X11: with the manual input enabled and no date of the series after the
    first of the current month, the forecast starts at the end of the
    current month, at the clock's time of day. *)
Theorem manual_input_starts_at_current_month data value now n forecast :
  (∀ d, d ∈ (Date <$> data) → dt_le d (replace_day1 now)) →
  forecast_inflation (interactive_input true value now data) n = inr forecast →
  first_column (forecast_display forecast n)
  = CDate <$> month_ends (month_end_of now) n.
Proof.
  intros Hub (last & Hin & Hlast & ->)%forecast_display_dates.
  rewrite <- first_month_end_after_day1. do 3 f_equal.
  unfold interactive_input in *.
  destruct (append_current_month_cases data value now) as [[Hmem E]|[_ E]];
    rewrite E in Hin, Hlast.
  - by apply (last_date_unique (Date <$> data)).
  - apply (last_date_unique
             (Date <$> data ++ [mk_obs (replace_day1 now) (JNum value)]));
      [done|done| |].
    + rewrite fmap_app. apply elem_of_app. right. apply list_elem_of_here.
    + intros d. rewrite fmap_app.
      intros [Hd|Hd%list_elem_of_singleton]%elem_of_app; [by apply Hub|].
      by rewrite Hd.
Qed.

End ForecastFrame.

(** X12: the dates of a forecast depend only on the dates of the series and
    on the horizon: neither the observed values nor anything the libraries
    compute changes them. *)
Theorem forecast_dates_ignore_values (L1 L2 : Libraries) data1 data2 n f1 f2 :
  Date <$> data1 = Date <$> data2 →
  @forecast_inflation L1 data1 n = inr f1 →
  @forecast_inflation L2 data2 n = inr f2 →
  ds <$> f1 = ds <$> f2 ∧
  first_column (forecast_display f1 n) = first_column (forecast_display f2 n).
Proof.
  intros Hdates (last1 & Hin1 & Hub1 & Hds1)%forecast_inflation_dates
         (last2 & Hin2 & Hub2 & Hds2)%forecast_inflation_dates.
  rewrite Hdates in *.
  assert (last1 = last2) as -> by (by apply (last_date_unique (Date <$> data2))).
  assert (ds <$> f1 = ds <$> f2) as Hds by congruence.
  split; [done|]. by rewrite !display_first_column, Hds.
Qed.


Lemma forecast_length_witness :
  length (demo_forecast sample 3) = (length (remove_dups (Date <$> sample)) + 3)%nat.
Proof.
  apply (@forecast_length demo sample 3 (demo_forecast sample 3)).
  vm_compute. reflexivity.
Defined.

Lemma longer_horizon_extends_table_witness :
  first_column (forecast_display (demo_forecast sample 3) 3)
  = take 3 (first_column (forecast_display (demo_forecast sample 5) 5)).
Proof.
  apply (@longer_horizon_extends_table demo sample 3 5).
  - vm_compute. reflexivity.
  - vm_compute. reflexivity.
  - lia.
Defined.

Lemma table_index_labels_witness :
  index (forecast_display (demo_forecast sample 3) 3)
  = seq (length (remove_dups (Date <$> sample))) 3.
Proof.
  apply (@table_index_labels demo sample 3 (demo_forecast sample 3)).
  vm_compute. reflexivity.
Defined.

Lemma manual_input_starts_at_current_month_witness :
  first_column
    (forecast_display
       (demo_forecast (interactive_input true (219 # 10) clock1 sample) 3) 3)
  = CDate <$> month_ends (month_end_of clock1) 3.
Proof.
  apply (@manual_input_starts_at_current_month demo sample (219 # 10) clock1 3).
  - intros d Hd. simpl in Hd.
    apply elem_of_cons in Hd as [->|Hd]; [reflexivity|].
    apply list_elem_of_singleton in Hd as ->. reflexivity.
  - vm_compute. reflexivity.
Defined.

Lemma forecast_dates_ignore_values_witness :
  ds <$> demo_forecast sample 3 = ds <$> demo_forecast sample_other_values 3 ∧
  first_column (forecast_display (demo_forecast sample 3) 3)
  = first_column (forecast_display (demo_forecast sample_other_values 3) 3).
Proof.
  apply (forecast_dates_ignore_values demo demo sample sample_other_values 3).
  - reflexivity.
  - vm_compute. reflexivity.
  - vm_compute. reflexivity.
Defined.

(** ** The page of a run *)

Lemma charts_page_inputs data inp : charts (page_inputs data inp) = [].
Proof. unfold page_inputs. by destruct (input_current inp). Qed.


Section Page.
Context `{Libraries}.

(** X13: when the fit raises (a series of fewer than two rows, or one
    Prophet rejects), the run ends with that exception after the raw-data
    view and the input widgets: the page has no chart, no forecast table and
    no download. *)
Theorem fit_failure_keeps_inputs_only r data e inp now :
  get_world_bank_inflation r = inr data →
  forecast_inflation
    (interactive_input (input_current inp) (current_inflation inp) now data)
    (forecast_period inp) = inl e →
  render r inp now = (page_inputs data inp, inl e) ∧
  raw_views (page_inputs data inp) = [tail 12 data] ∧
  charts (page_inputs data inp) = [] ∧
  shown_tables (page_inputs data inp) = [] ∧
  downloads (page_inputs data inp) = [].
Proof.
  intros Hr Hf. split; [by apply render_fit_error|].
  split; [apply raw_views_page_inputs|]. split; [apply charts_page_inputs|].
  split; [apply shown_tables_page_inputs|apply downloads_page_inputs].
Qed.


End Page.

Lemma fit_failure_keeps_inputs_only_witness :
  @render demo single_record_response unticked_inputs clock1
  = (page_inputs [mk_obs (date 2023 1 1) (JNum (2466 # 100))] unticked_inputs,
     inl (ValueError "Dataframe has less than 2 non-NaN rows.")) ∧
  raw_views (page_inputs [mk_obs (date 2023 1 1) (JNum (2466 # 100))] unticked_inputs)
  = [tail 12 [mk_obs (date 2023 1 1) (JNum (2466 # 100))]] ∧
  charts (page_inputs [mk_obs (date 2023 1 1) (JNum (2466 # 100))] unticked_inputs) = [] ∧
  shown_tables (page_inputs [mk_obs (date 2023 1 1) (JNum (2466 # 100))] unticked_inputs) = [] ∧
  downloads (page_inputs [mk_obs (date 2023 1 1) (JNum (2466 # 100))] unticked_inputs) = [].
Proof.
  apply (@fit_failure_keeps_inputs_only demo single_record_response).
  - vm_compute. reflexivity.
  - vm_compute. reflexivity.
Defined.

